(** * fevm-fan-curve: the fan curve daemon of the FEVM FA880 PRO

    A shallow embedding of [userspace/fevm-fan-curve.py] and the properties
    of its curve evaluator, duty clamp, sensor resolver, temperature sampler
    and control loop.

    Conventions of the embedding.
    - A Python [int] is a [Z].
    - A Python [float] holding a temperature is the rational it denotes, a
      [Q]: comparisons are the rational ones and arithmetic is exact.  The
      not-a-number and infinite floats, overflow and the rounding error of
      binary64 are outside the model.
    - A Python exception is a value of [exception]; a call that may raise
      returns a [res].  [SystemExit] is not an [Exception] in Python and is
      kept apart, in [raised].
    - The sysfs tree is a record of functions, [Sysfs]: what [glob.glob]
      lists, what reading a file gives, whether a write goes through. *)

From Stdlib Require Import ZArith QArith Qround Lia Lqa String Ascii DecimalString DecimalPos.
From stdpp Require Import base option list gmap strings.

Local Open Scope Z_scope.

(** ** Exceptions and results *)

Inductive exception : Type :=
| IndexError
| ZeroDivisionError
| ValueError (msg : string)
| RuntimeError (msg : string)
| FileNotFoundError (path : string)
| PermissionError (path : string)
| UnicodeDecodeError (path : string)
| OSError (path : string).

Inductive res (E A : Type) : Type :=
| Ok (a : A)
| Raise (e : E).
Arguments Ok {E A} a.
Arguments Raise {E A} e.

Definition bind {E A B : Type} (m : res E A) (k : A -> res E B) : res E B :=
  match m with
  | Ok a => k a
  | Raise e => Raise e
  end.

Definition is_ok {E A : Type} (m : res E A) : bool :=
  match m with Ok _ => true | Raise _ => false end.

(** ** Curves *)

(** [Curve = List[Tuple[float, int]]] *)
Definition Curve : Type := list (Q * Z).

(** [round(x)] of Python 3 on a float: the nearest integer, an exact half
    going to the even neighbour. *)
Definition py_round (x : Q) : Z :=
  let f := Qfloor x in
  match (x - inject_Z f ?= 1 # 2)%Q with
  | Lt => f
  | Gt => f + 1
  | Eq => if Z.even f then f else f + 1
  end.

(** The body of the [for] of [lerp_curve] once a segment matched:
    [ratio = (temp_c - t0) / (t1 - t0)], then
    [int(round(d0 + ratio * (d1 - d0)))].  A float division by zero raises
    [ZeroDivisionError]. *)
Definition interpolate (temp_c t0 : Q) (d0 : Z) (t1 : Q) (d1 : Z)
  : res exception Z :=
  if Qeq_bool (t1 - t0) 0 then Raise ZeroDivisionError
  else
    let ratio := ((temp_c - t0) / (t1 - t0))%Q in
    Ok (py_round (inject_Z d0 + ratio * inject_Z (d1 - d0))%Q).

(** [for (t0, d0), (t1, d1) in zip(curve, curve[1:])]: the first segment
    with [t0 <= temp_c <= t1] returns; [None] is the loop running off its
    end. *)
Fixpoint scan_segments (temp_c : Q) (segs : list ((Q * Z) * (Q * Z)))
  : option (res exception Z) :=
  match segs with
  | [] => None
  | ((t0, d0), (t1, d1)) :: rest =>
      if Qle_bool t0 temp_c && Qle_bool temp_c t1
      then Some (interpolate temp_c t0 d0 t1 d1)
      else scan_segments temp_c rest
  end.

Definition segments (curve : Curve) : list ((Q * Z) * (Q * Z)) :=
  zip curve (tail curve).

Definition lerp_curve (temp_c : Q) (curve : Curve) : res exception Z :=
  match head curve, last curve with
  | Some (t_first, d_first), Some (t_last, d_last) =>
      if Qle_bool temp_c t_first then Ok d_first
      else if Qle_bool t_last temp_c then Ok d_last
      else match scan_segments temp_c (segments curve) with
           | Some r => r
           | None => Ok d_last
           end
  | _, _ => Raise IndexError
  end.

(** ** Duty clamp *)

Definition clamp_duty (duty min_duty max_duty : Z) : Z :=
  Z.max min_duty (Z.min max_duty duty).


(** ** Text helpers: [str.strip], [int(str)], [str(int)], [os.path.join] *)

(** The ASCII characters [str.isspace] accepts. *)
Definition py_isspace (c : ascii) : bool :=
  let n := nat_of_ascii c in
  ((9 <=? n)%nat && (n <=? 13)%nat) || ((28 <=? n)%nat && (n <=? 32)%nat).

Fixpoint lstrip (s : string) : string :=
  match s with
  | EmptyString => EmptyString
  | String c r => if py_isspace c then lstrip r else s
  end.

Definition strip (s : string) : string :=
  String.rev (lstrip (String.rev (lstrip s))).

(** The digits of a decimal literal: single underscores may sit between
    digits, nowhere else. *)
Fixpoint parse_digits (acc : Z) (after_digit : bool) (s : string) : option Z :=
  match s with
  | EmptyString => if after_digit then Some acc else None
  | String c r =>
      match Ascii.is_nat c with
      | Some d => parse_digits (10 * acc + Z.of_nat d) true r
      | None =>
          if Ascii.eqb c "_" && after_digit then parse_digits acc false r
          else None
      end
  end.

(** [int(s)] on a string, base ten. *)
Definition py_int_of_str (s : string) : res exception Z :=
  let body := strip s in
  let signed :=
    match body with
    | String "-" r => (true, r)
    | String "+" r => (false, r)
    | _ => (false, body)
    end in
  match parse_digits 0 false (snd signed) with
  | Some n => Ok (if fst signed then - n else n)
  | None => Raise (ValueError "invalid literal for int() with base 10")
  end.

(** [str(n)] on an integer. *)
Definition py_str (n : Z) : string := NilZero.string_of_int (Z.to_int n).

Definition py_str_nat (n : nat) : string := NilZero.string_of_uint (Nat.to_uint n).

(** [os.path.join(a, b)] for a relative [b]. *)
Definition path_join (a b : string) : string :=
  match String.rev a with
  | EmptyString => b
  | String "/" _ => a +:+ b
  | _ => a +:+ "/" +:+ b
  end.

(** [repr] of a list of strings, as an f-string prints it (no escapes). *)
Definition py_repr_list (l : list string) : string :=
  "[" +:+ String.concat ", " (map (fun x => "'" +:+ x +:+ "'") l) +:+ "]".

(** ** Curve construction *)

(** An object of the parsed configuration, seen through what [float()] and
    [int()] make of it. *)
Record pyobj : Type := PyObj {
  as_float : res exception Q;
  as_int : res exception Z;
}.

(** A number written as an integer, and one written as a float ([int()]
    truncates towards zero). *)
Definition py_of_int (z : Z) : pyobj :=
  {| as_float := Ok (inject_Z z); as_int := Ok z |}.
Definition py_of_float (q : Q) : pyobj :=
  {| as_float := Ok q; as_int := Ok (Z.quot (Qnum q) (Z.pos (Qden q))) |}.

(** An entry of the raw curve: a list or tuple of objects, or anything
    else. *)
Inductive raw_point : Type :=
| RSeq (items : list pyobj)
| ROther.

(** The first [for] of [parse_curve]. *)
Fixpoint convert_points (key : string) (idx : nat) (raw : list raw_point)
  : res exception Curve :=
  match raw with
  | [] => Ok []
  | point :: rest =>
      match point with
      | RSeq [p0; p1] =>
          bind (as_float p0) (fun temp_c =>
          bind (as_int p1) (fun duty =>
          bind (convert_points key (S idx) rest) (fun points =>
          Ok ((temp_c, duty) :: points))))
      | _ =>
          Raise (ValueError
                   (key +:+ "[" +:+ py_str_nat idx +:+ "] must be [temp_c, duty]"))
      end
  end.

(** The second [for] of [parse_curve], [prev_t] threaded through. *)
Fixpoint check_increasing (key : string) (prev_t : option Q) (points : Curve)
  : res exception unit :=
  match points with
  | [] => Ok tt
  | (temp_c, _) :: rest =>
      match prev_t with
      | Some p =>
          if Qle_bool temp_c p
          then Raise (ValueError
                        (key +:+ " temperatures must be strictly increasing"))
          else check_increasing key (Some temp_c) rest
      | None => check_increasing key (Some temp_c) rest
      end
  end.

Definition parse_curve (raw : list raw_point) (key : string)
  : res exception Curve :=
  bind (convert_points key 0 raw) (fun points =>
  match points with
  | [] => Raise (ValueError (key +:+ " must not be empty"))
  | _ => bind (check_increasing key None points) (fun _ => Ok points)
  end).

(** ** The sysfs tree *)

Record Sysfs : Type := {
  (** [glob.glob(pattern)] *)
  glob : string -> list string;
  (** [open(path, "r", encoding="utf-8")] followed by [f.read()] *)
  read_file : string -> res exception string;
  (** [open(path, "w", encoding="utf-8")] followed by [f.write(text)] *)
  write_file : string -> string -> res exception unit;
}.

(** ** Sensor resolution *)

(** The [for] of [find_hwmons_by_name]: a missing [name] attribute is
    skipped, any other error of the read propagates. *)
Fixpoint scan_hwmons (fs : Sysfs) (name : string) (ps : list string)
  : res exception (list string) :=
  match ps with
  | [] => Ok []
  | p :: rest =>
      match read_file fs (path_join p "name") with
      | Ok text =>
          bind (scan_hwmons fs name rest) (fun found =>
          Ok (if String.eqb (strip text) name then p :: found else found))
      | Raise (FileNotFoundError _) => scan_hwmons fs name rest
      | Raise e => Raise e
      end
  end.

Definition find_hwmons_by_name (fs : Sysfs) (name : string)
  : res exception (list string) :=
  scan_hwmons fs name (glob fs "/sys/class/hwmon/hwmon*").

(** The inner [for] of [resolve_hwmons] on the pair [(dedup, seen)]. *)
Fixpoint add_unseen (found : list string) (acc : list string * gset string)
  : list string * gset string :=
  match found with
  | [] => acc
  | hwmon :: rest =>
      if decide (hwmon ∈ acc.2) then add_unseen rest acc
      else add_unseen rest (acc.1 ++ [hwmon], {[hwmon]} ∪ acc.2)
  end.

(** The outer [for] of [resolve_hwmons]. *)
Fixpoint resolve_loop (fs : Sysfs) (names : list string)
  (acc : list string * gset string) : res exception (list string) :=
  match names with
  | [] => Ok acc.1
  | name :: rest =>
      bind (find_hwmons_by_name fs name) (fun found =>
      resolve_loop fs rest (add_unseen found acc))
  end.

Definition resolve_hwmons (fs : Sysfs) (names : list string)
  : res exception (list string) :=
  resolve_loop fs names ([], ∅).

(** ** Temperature sampling *)

Definition read_temp_millic (fs : Sysfs) (path : string) : res exception Q :=
  bind (read_file fs path) (fun text =>
  bind (py_int_of_str (strip text)) (fun n =>
  Ok (inject_Z n / 1000)%Q)).

(** The inner [for] of [max_temp_in_hwmons]: a read that raises is
    skipped. *)
Fixpoint read_inputs (fs : Sysfs) (inputs : list string) : list Q :=
  match inputs with
  | [] => []
  | t :: rest =>
      match read_temp_millic fs t with
      | Ok v => v :: read_inputs fs rest
      | Raise _ => read_inputs fs rest
      end
  end.

(** The list [temps] once both loops are over. *)
Fixpoint collect_temps (fs : Sysfs) (hwmon_paths : list string) : list Q :=
  match hwmon_paths with
  | [] => []
  | hwmon :: rest =>
      read_inputs fs (glob fs (path_join hwmon "temp*_input"))
        ++ collect_temps fs rest
  end.

(** [max] over a non-empty list: the first of the largest items. *)
Fixpoint py_max (best : Q) (l : list Q) : Q :=
  match l with
  | [] => best
  | x :: rest => py_max (if Qle_bool x best then best else x) rest
  end.

Definition max_temp_in_hwmons (fs : Sysfs) (hwmon_paths : list string)
  : res exception Q :=
  match collect_temps fs hwmon_paths with
  | [] => Raise (RuntimeError
                   ("no temp*_input found under " +:+ py_repr_list hwmon_paths))
  | t :: rest => Ok (py_max t rest)
  end.

(** ** The control loop *)

Inductive level : Type := DEBUG | INFO | WARNING | ERROR.

(** What the process has done so far: the texts written to files, oldest
    first, and the calls made to [logging]. *)
Record Store : Type := {
  written : list (string * string);
  logged : list (level * string);
}.

Definition empty_store : Store := {| written := []; logged := [] |}.

(** A statement: it runs on a store, returns or raises, and leaves a store;
    what was done before a raise stays done. *)
Definition M (E A : Type) : Type := Store -> res E A * Store.

Definition ret {E A : Type} (a : A) : M E A := fun s => (Ok a, s).

Definition raise {E A : Type} (e : E) : M E A := fun s => (Raise e, s).

Definition mbind' {E A B : Type} (m : M E A) (k : A -> M E B) : M E B :=
  fun s =>
    match m s with
    | (Ok a, s') => k a s'
    | (Raise e, s') => (Raise e, s')
    end.

Definition lift {E A : Type} (r : res E A) : M E A := fun s => (r, s).

(** [try: body / except Exception as e: handler(e)] *)
Definition try_except {A : Type} (body : M exception A)
  (handler : exception -> M exception A) : M exception A :=
  fun s =>
    match body s with
    | (Ok a, s') => (Ok a, s')
    | (Raise e, s') => handler e s'
    end.

Definition log {E : Type} (lvl : level) (msg : string) : M E unit :=
  fun s => (Ok tt, {| written := written s; logged := logged s ++ [(lvl, msg)] |}).

Declare Scope stmt_scope.
Delimit Scope stmt_scope with stmt.
Notation "x <- c1 ;; c2" := (mbind' c1 (fun x => c2))
  (at level 100, c1 at next level, right associativity) : stmt_scope.
Notation "c1 ;; c2" := (mbind' c1 (fun _ => c2))
  (at level 100, right associativity) : stmt_scope.

Definition write_duty (fs : Sysfs) (path : string) (duty min_duty max_duty : Z)
  : M exception unit :=
  let duty := clamp_duty duty min_duty max_duty in
  fun s =>
    match write_file fs path (py_str duty) with
    | Ok _ =>
        (Ok tt, {| written := written s ++ [(path, py_str duty)];
                   logged := logged s |})
    | Raise e => (Raise e, s)
    end.

Record Config : Type := {
  fan1_path : string;
  fan2_path : string;
  poll_sec : Q;
  min_duty : Z;
  max_duty : Z;
  failsafe_duty : Z;
  cpu_sensor_names : list string;
  mem_sensor_names : list string;
  mem_fallback_to_cpu : bool;
  cpu_curve : Curve;
  mem_curve : Curve;
}.

Definition DEFAULT_CONFIG : Config := {|
  fan1_path := "/sys/devices/platform/fevm-ip3-wmi/fan1_duty";
  fan2_path := "/sys/devices/platform/fevm-ip3-wmi/fan2_duty";
  poll_sec := 1;
  min_duty := 20;
  max_duty := 100;
  failsafe_duty := 70;
  cpu_sensor_names := ["k10temp"];
  mem_sensor_names := ["spd5118"];
  mem_fallback_to_cpu := true;
  cpu_curve := [(40%Q, 20); (55%Q, 35); (65%Q, 55); (75%Q, 75); (85%Q, 100)];
  mem_curve := [(35%Q, 20); (50%Q, 40); (60%Q, 60); (70%Q, 80); (80%Q, 100)];
|}.

Section Loop.
Variable cfg : Config.
Variables cpu_hwmons mem_hwmons : list string.

(** The [try] suite of the loop. *)
Definition tick_body (fs : Sysfs) : M exception unit :=
  (cpu_t <- lift (max_temp_in_hwmons fs cpu_hwmons) ;;
   mem_t <- lift (max_temp_in_hwmons fs mem_hwmons) ;;
   cpu_duty <- lift (lerp_curve cpu_t (cpu_curve cfg)) ;;
   mem_duty <- lift (lerp_curve mem_t (mem_curve cfg)) ;;
   write_duty fs (fan1_path cfg) cpu_duty (min_duty cfg) (max_duty cfg) ;;
   write_duty fs (fan2_path cfg) mem_duty (min_duty cfg) (max_duty cfg) ;;
   log DEBUG "cpu=%.1fC mem=%.1fC -> fan1=%d fan2=%d")%stmt.

(** The inner [try] suite, in the [except] of the loop. *)
Definition failsafe_body (fs : Sysfs) : M exception unit :=
  (write_duty fs (fan1_path cfg) (failsafe_duty cfg) (min_duty cfg) (max_duty cfg) ;;
   write_duty fs (fan2_path cfg) (failsafe_duty cfg) (min_duty cfg) (max_duty cfg))%stmt.

(** The [try] statement of the loop. *)
Definition tick (fs : Sysfs) : M exception unit :=
  try_except (tick_body fs) (fun e =>
    (log ERROR "fan loop error: %s; applying failsafe duty" ;;
     try_except (failsafe_body fs) (fun _ =>
       log ERROR "failed to write failsafe duty"))%stmt).

(** [time.sleep(poll_sec)]: the delay itself is not modelled, its refusal
    of a negative length is. *)
Definition sleep (secs : Q) : M exception unit :=
  if Qle_bool 0 secs then ret tt
  else raise (ValueError "sleep length must be non-negative").

(** The state of the world at the head of one iteration: the flag
    [RUNNING] as the signal handler left it, and the sysfs tree. *)
Record Moment : Type := {
  running : bool;
  sysfs : Sysfs;
}.

(** How the [while] was left: its condition was false, or the moments
    listed ran out with the loop still going. *)
Inductive loop_end : Type := Stopped | StillRunning.

(** [while RUNNING: try ... ; time.sleep(poll_sec)] *)
Fixpoint main_loop (moments : list Moment) : M exception loop_end :=
  match moments with
  | [] => ret StillRunning
  | m :: rest =>
      if running m then
        (tick (sysfs m) ;;
         sleep (poll_sec cfg) ;;
         main_loop rest)%stmt
      else ret Stopped
  end.
End Loop.

(** ** Startup and [main] *)

Inductive exit_arg : Type :=
| ExitCode (n : Z)
| ExitMessage (msg : string).

(** What leaves [main] other than a return. *)
Inductive raised : Type :=
| Uncaught (e : exception)
| SystemExit (arg : exit_arg).

(** The exit status the interpreter gives the process. *)
Definition exit_status (r : raised) : Z :=
  match r with
  | Uncaught _ => 1
  | SystemExit (ExitCode n) => n
  | SystemExit (ExitMessage _) => 1
  end.

Definition uncaught {A : Type} (m : M exception A) : M raised A :=
  fun s =>
    match m s with
    | (Ok a, s') => (Ok a, s')
    | (Raise e, s') => (Raise (Uncaught e), s')
    end.

(** [main] from the two calls of [resolve_hwmons] to the head of the
    loop: the sensor groups the loop will use. *)
Definition startup (cfg : Config) (fs : Sysfs)
  : M raised (list string * list string) :=
  (cpu_hwmons <- uncaught (lift (resolve_hwmons fs (cpu_sensor_names cfg))) ;;
   mem_hwmons <- uncaught (lift (resolve_hwmons fs (mem_sensor_names cfg))) ;;
   match cpu_hwmons with
   | [] =>
       raise (SystemExit (ExitMessage
         ("CPU hwmon not found, names=" +:+ py_repr_list (cpu_sensor_names cfg))))
   | _ =>
       mem_hwmons <-
         match mem_hwmons with
         | [] =>
             if mem_fallback_to_cpu cfg then
               (log WARNING "memory hwmon not found, fallback to CPU sensor" ;;
                ret cpu_hwmons)
             else
               raise (SystemExit (ExitMessage
                 ("MEM hwmon not found, names="
                    +:+ py_repr_list (mem_sensor_names cfg))))
         | _ => ret mem_hwmons
         end ;;
       log INFO "cpu_hwmons=%s mem_hwmons=%s" ;;
       log INFO "fan1=%s fan2=%s poll=%.2fs" ;;
       ret (cpu_hwmons, mem_hwmons)
   end)%stmt.

(** [main] after [load_config]: the configuration is the one it returned,
    [boot] is the sysfs tree at startup, [moments] what the loop meets. *)
Definition main (cfg : Config) (boot : Sysfs) (moments : list Moment)
  : M raised (Z + loop_end) :=
  (groups <- startup cfg boot ;;
   e <- uncaught (main_loop cfg groups.1 groups.2 moments) ;;
   match e with
   | Stopped => log INFO "shutdown requested, exit" ;; ret (inl 0)
   | StillRunning => ret (inr StillRunning)
   end)%stmt.

(** [raise SystemExit(main())]: the exit status of the process, from how
    [main] ended; none while the loop is still going. *)
Definition exit_of (r : res raised (Z + loop_end)) : option Z :=
  match r with
  | Ok (inl n) => Some (exit_status (SystemExit (ExitCode n)))
  | Ok (inr _) => None
  | Raise e => Some (exit_status e)
  end.

(** ** Configuration loading *)

(** A value of the parsed TOML document, seen through what [load_config]
    does with it: [str(x)], [float(x)], [int(x)], [bool(x)],
    [[str(i) for i in x]], and the entries [parse_curve] meets when it
    iterates over it. *)
Record pyval : Type := PyVal {
  val_str : string;
  val_float : res exception Q;
  val_int : res exception Z;
  val_bool : bool;
  val_strs : res exception (list string);
  val_points : res exception (list raw_point);
}.

(** The three tables [data.get("general", {})], [data.get("sensors", {})]
    and [data.get("curves", {})]; a table the document lacks is empty. *)
Record Document : Type := {
  general : gmap string pyval;
  sensors : gmap string pyval;
  curves : gmap string pyval;
}.

(** What [load_config] meets outside the process: [os.path.exists], the
    TOML module that could be imported if any, whose [load] stands for
    [open(path, "rb")] followed by [toml_reader.load(f)]. *)
Record ConfigEnv : Type := {
  path_exists : string -> bool;
  toml_reader : option (string -> res exception Document);
}.

(** [if key in table: cfg[...] = conv(table[key])], the default staying
    otherwise. *)
Definition override {A : Type} (table : gmap string pyval) (key : string)
  (conv : pyval -> res exception A) (default : A) : res exception A :=
  match table !! key with
  | Some v => conv v
  | None => Ok default
  end.

Definition load_config (env : ConfigEnv) (path : string) : res exception Config :=
  let cfg := DEFAULT_CONFIG in
  if negb (path_exists env path) then Ok cfg
  else
    match toml_reader env with
    | None =>
        Raise (RuntimeError "No TOML parser: use Python 3.11+ or install tomli")
    | Some load =>
        bind (load path) (fun data =>
        bind (override (general data) "fan1_path"
                (fun v => Ok (val_str v)) (fan1_path cfg)) (fun fan1 =>
        bind (override (general data) "fan2_path"
                (fun v => Ok (val_str v)) (fan2_path cfg)) (fun fan2 =>
        bind (override (general data) "poll_sec" val_float (poll_sec cfg)) (fun poll =>
        bind (override (general data) "min_duty" val_int (min_duty cfg)) (fun lo =>
        bind (override (general data) "max_duty" val_int (max_duty cfg)) (fun hi =>
        bind (override (general data) "failsafe_duty" val_int (failsafe_duty cfg))
          (fun failsafe =>
        bind (override (sensors data) "cpu_names" val_strs (cpu_sensor_names cfg))
          (fun cpu_names =>
        bind (override (sensors data) "mem_names" val_strs (mem_sensor_names cfg))
          (fun mem_names =>
        bind (override (sensors data) "mem_fallback_to_cpu"
                (fun v => Ok (val_bool v)) (mem_fallback_to_cpu cfg)) (fun fallback =>
        bind (override (curves data) "cpu"
                (fun v => bind (val_points v) (fun raw => parse_curve raw "curves.cpu"))
                (cpu_curve cfg)) (fun cpu =>
        bind (override (curves data) "mem"
                (fun v => bind (val_points v) (fun raw => parse_curve raw "curves.mem"))
                (mem_curve cfg)) (fun mem =>
        Ok {| fan1_path := fan1; fan2_path := fan2; poll_sec := poll;
              min_duty := lo; max_duty := hi; failsafe_duty := failsafe;
              cpu_sensor_names := cpu_names; mem_sensor_names := mem_names;
              mem_fallback_to_cpu := fallback;
              cpu_curve := cpu; mem_curve := mem |}))))))))))))
    end.

(** [main] from [load_config] on: an error of [load_config] leaves [main]
    uncaught. *)
Definition run_main (env : ConfigEnv) (path : string) (boot : Sysfs)
  (moments : list Moment) : M raised (Z + loop_end) :=
  fun s =>
    match load_config env path with
    | Ok cfg => main cfg boot moments s
    | Raise e => (Raise (Uncaught e), s)
    end.

(** ** Signals *)





(** ** Notions the properties are stated with *)


Definition temps (curve : Curve) : list Q := curve.*1.

(** Every earlier item is below every later one. *)
Definition strictly_increasing (ts : list Q) : Prop :=
  forall (i j : nat) (a b : Q),
    ts !! i = Some a -> ts !! j = Some b -> (i < j)%nat -> (a < b)%Q.



(** A statement only adds to the texts written, and what it adds
    satisfies [P]. *)
Definition writes_only {E A : Type} (P : string * string -> Prop) (m : M E A)
  : Prop :=
  forall s : Store,
    exists new, written (m s).2 = written s ++ new /\ Forall P new.

(** A write of the loop: to one of the two fan paths, of the decimal text
    of a clamped duty. *)
Definition clamped_write (cfg : Config) (w : string * string) : Prop :=
  (w.1 = fan1_path cfg \/ w.1 = fan2_path cfg) /\
  exists duty : Z,
    w.2 = py_str (clamp_duty duty (min_duty cfg) (max_duty cfg)).

(** A raw curve whose entries are all pairs [[temp_c, duty]] that [float()]
    and [int()] accept, and the points they denote, in the same order. *)
Definition well_formed_raw (raw : list raw_point) (points : Curve) : Prop :=
  Forall2 (fun (r : raw_point) (pt : Q * Z) =>
             exists p0 p1 : pyobj,
               r = RSeq [p0; p1] /\ as_float p0 = Ok pt.1 /\ as_int p1 = Ok pt.2)
          raw points.

(** A raw curve written with integers only. *)
Definition raw_of_ints (l : list (Z * Z)) : list raw_point :=
  map (fun p => RSeq [py_of_int p.1; py_of_int p.2]) l.


(** A source whose [name] attribute reads as [name], surrounding
    whitespace apart. *)
Definition name_matches (fs : Sysfs) (name p : string) : Prop :=
  exists text : string,
    read_file fs (path_join p "name") = Ok text /\ strip text = name.

Global Instance name_matches_dec (fs : Sysfs) (name p : string) :
  Decision (name_matches fs name p).
Proof.
  unfold name_matches.
  destruct (read_file fs (path_join p "name")) as [text|e].
  - destruct (decide (strip text = name)) as [H|H].
    + left. eauto.
    + right. intros (t & [= <-] & Ht). contradiction.
  - right. intros (t & [=] & _).
Defined.

(** The sources that match one name, in the order [glob.glob] lists
    them, and those that match the names of a list, name after name. *)
Definition matching (fs : Sysfs) (name : string) : list string :=
  filter (name_matches fs name) (glob fs "/sys/class/hwmon/hwmon*").

Fixpoint all_matches (fs : Sysfs) (names : list string) : list string :=
  match names with
  | [] => []
  | name :: rest => matching fs name ++ all_matches fs rest
  end.

(** A list without its repetitions: every item stays where it first
    occurs. *)
Fixpoint first_occurrences (l : list string) : list string :=
  match l with
  | [] => []
  | x :: rest => x :: filter (fun y => y <> x) (first_occurrences rest)
  end.

(** ** Sysfs trees the properties are tried on *)

Definition newline : string := String (ascii_of_nat 10) EmptyString.

(** Three sources: a CPU sensor with two inputs, one of them unreadable
    text; a memory sensor; a source without a [name] attribute.  Every
    write goes through. *)
Definition example_sysfs : Sysfs := {|
  glob := fun pattern =>
    if String.eqb pattern "/sys/class/hwmon/hwmon*" then
      ["/sys/class/hwmon/hwmon0"; "/sys/class/hwmon/hwmon1";
       "/sys/class/hwmon/hwmon2"]
    else if String.eqb pattern "/sys/class/hwmon/hwmon0/temp*_input" then
      ["/sys/class/hwmon/hwmon0/temp1_input";
       "/sys/class/hwmon/hwmon0/temp2_input"]
    else if String.eqb pattern "/sys/class/hwmon/hwmon1/temp*_input" then
      ["/sys/class/hwmon/hwmon1/temp1_input"]
    else [];
  read_file := fun path =>
    if String.eqb path "/sys/class/hwmon/hwmon0/name" then
      Ok ("k10temp" +:+ newline)
    else if String.eqb path "/sys/class/hwmon/hwmon1/name" then
      Ok ("spd5118" +:+ newline)
    else if String.eqb path "/sys/class/hwmon/hwmon0/temp1_input" then
      Ok ("47500" +:+ newline)
    else if String.eqb path "/sys/class/hwmon/hwmon0/temp2_input" then
      Ok "n/a"
    else if String.eqb path "/sys/class/hwmon/hwmon1/temp1_input" then
      Ok ("38000" +:+ newline)
    else Raise (FileNotFoundError path);
  write_file := fun _ _ => Ok tt;
|}.

(** The same tree with no temperature input left and a first fan path
    that refuses every write. *)
Definition stuck_sysfs : Sysfs := {|
  glob := fun pattern =>
    if String.eqb pattern "/sys/class/hwmon/hwmon*" then glob example_sysfs pattern
    else [];
  read_file := read_file example_sysfs;
  write_file := fun path _ =>
    if String.eqb path (fan1_path DEFAULT_CONFIG)
    then Raise (PermissionError path) else Ok tt;
|}.

(** The text the failsafe branch writes. *)
Definition failsafe_text (cfg : Config) : string :=
  py_str (clamp_duty (failsafe_duty cfg) (min_duty cfg) (max_duty cfg)).

(** The default configuration with memory sensor names no source has, and
    the same without the fallback. *)
Definition no_mem_config : Config := {|
  fan1_path := fan1_path DEFAULT_CONFIG;
  fan2_path := fan2_path DEFAULT_CONFIG;
  poll_sec := poll_sec DEFAULT_CONFIG;
  min_duty := min_duty DEFAULT_CONFIG;
  max_duty := max_duty DEFAULT_CONFIG;
  failsafe_duty := failsafe_duty DEFAULT_CONFIG;
  cpu_sensor_names := cpu_sensor_names DEFAULT_CONFIG;
  mem_sensor_names := ["ddr5"];
  mem_fallback_to_cpu := true;
  cpu_curve := cpu_curve DEFAULT_CONFIG;
  mem_curve := mem_curve DEFAULT_CONFIG;
|}.


(** A source whose [name] attribute can be read or is missing. *)
Definition name_readable (fs : Sysfs) (p : string) : Prop :=
  match read_file fs (path_join p "name") with
  | Ok _ => True
  | Raise (FileNotFoundError _) => True
  | Raise _ => False
  end.

(** An entry of a raw curve that is not a list or tuple of two items. *)
Definition malformed (r : raw_point) : Prop :=
  match r with
  | RSeq [_; _] => False
  | _ => True
  end.

(** A document that sets nothing. *)
Definition empty_document : Document :=
  {| general := ∅; sensors := ∅; curves := ∅ |}.

(** The example tree with a third source whose [name] attribute may not
    be read. *)
Definition locked_sysfs : Sysfs := {|
  glob := glob example_sysfs;
  read_file := fun path =>
    if String.eqb path "/sys/class/hwmon/hwmon2/name"
    then Raise (PermissionError path)
    else read_file example_sysfs path;
  write_file := write_file example_sysfs;
|}.

(** The default configuration with inverted bounds, and with a negative
    poll interval. *)
Definition inverted_config : Config := {|
  fan1_path := fan1_path DEFAULT_CONFIG;
  fan2_path := fan2_path DEFAULT_CONFIG;
  poll_sec := poll_sec DEFAULT_CONFIG;
  min_duty := 80;
  max_duty := 30;
  failsafe_duty := failsafe_duty DEFAULT_CONFIG;
  cpu_sensor_names := cpu_sensor_names DEFAULT_CONFIG;
  mem_sensor_names := mem_sensor_names DEFAULT_CONFIG;
  mem_fallback_to_cpu := mem_fallback_to_cpu DEFAULT_CONFIG;
  cpu_curve := cpu_curve DEFAULT_CONFIG;
  mem_curve := mem_curve DEFAULT_CONFIG;
|}.



(** A TOML string that holds the decimal text of an integer: [str], [float],
    [int] and [bool] of it, and its characters, which is what iterating
    over it gives, none of them a list or tuple. *)
Definition numeral (n : Z) : pyval := {|
  val_str := py_str n;
  val_float := Ok (inject_Z n);
  val_int := Ok n;
  val_bool := true;
  val_strs :=
    Ok (map (fun c => String c EmptyString) (list_ascii_of_string (py_str n)));
  val_points := Ok (map (fun _ => ROther) (list_ascii_of_string (py_str n)));
|}.

(** A configuration file that sets the duty bounds, and one whose CPU
    curve is a string. *)
Definition bounds_document : Document := {|
  general := <["min_duty" := numeral 30]> (<["max_duty" := numeral 90]> ∅);
  sensors := ∅;
  curves := ∅;
|}.

Definition bad_curve_document : Document := {|
  general := <["min_duty" := numeral 30]> ∅;
  sensors := ∅;
  curves := <["cpu" := numeral 40]> ∅;
|}.

Definition env_with (data : Document) : ConfigEnv := {|
  path_exists := fun _ => true;
  toml_reader := Some (fun _ => Ok data);
|}.

(** The conversions [load_config] applies before it comes to the curves
    all return. *)
Definition scalars_convert (data : Document) : Prop :=
  (forall v, general data !! "poll_sec" = Some v -> is_ok (val_float v) = true) /\
  (forall v, general data !! "min_duty" = Some v -> is_ok (val_int v) = true) /\
  (forall v, general data !! "max_duty" = Some v -> is_ok (val_int v) = true) /\
  (forall v, general data !! "failsafe_duty" = Some v -> is_ok (val_int v) = true) /\
  (forall v, sensors data !! "cpu_names" = Some v -> is_ok (val_strs v) = true) /\
  (forall v, sensors data !! "mem_names" = Some v -> is_ok (val_strs v) = true).

(** A field of the configuration returned follows its key: the default
    when the table lacks the key, and otherwise what the conversion of the
    value returned. *)
Definition field_follows {A : Type} (table : gmap string pyval) (key : string)
  (conv : pyval -> res exception A) (default x : A) : Prop :=
  (table !! key = None -> x = default) /\
  (forall v, table !! key = Some v -> conv v = Ok x).




(** * Properties *)

(** ** Rounding *)






(** ** Interpolation on one segment *)

Lemma Qle_bool_false (x y : Q) : Qle_bool x y = false -> (y < x)%Q.
Proof.
  intros H. apply Qnot_le_lt. intros Hle.
  apply Qle_bool_iff in Hle. congruence.
Qed.

Lemma Qle_bool_true (x y : Q) : (x <= y)%Q -> Qle_bool x y = true.
Proof. apply Qle_bool_iff. Qed.

Lemma Qle_bool_lt_false (x y : Q) : (y < x)%Q -> Qle_bool x y = false.
Proof.
  intros H. destruct (Qle_bool x y) eqn:E; [|reflexivity].
  apply Qle_bool_iff in E. lra.
Qed.







(** ** The scan of the segments *)


Lemma lerp_curve_unfold (temp : Q) (p0 : Q * Z) (c : Curve) (t_last : Q) (d_last : Z) :
  last (p0 :: c) = Some (t_last, d_last) ->
  lerp_curve temp (p0 :: c) =
    if Qle_bool temp p0.1 then Ok p0.2
    else if Qle_bool t_last temp then Ok d_last
    else match scan_segments temp (zip (p0 :: c) c) with
         | Some r => r
         | None => Ok d_last
         end.
Proof.
  intros Hl. unfold lerp_curve. rewrite Hl. destruct p0 as [t0 d0]. reflexivity.
Qed.

Lemma last_cons_elem {A : Type} (x y : A) (l : list A) :
  last (x :: l) = Some y -> y = x /\ l = [] \/ y ∈ l.
Proof.
  intros H. apply last_Some in H as [l' H].
  destruct l' as [|z l'].
  - injection H as -> ->. now left.
  - injection H as -> ->. right. apply elem_of_app. right. apply list_elem_of_singleton.
    reflexivity.
Qed.


(** ** Sorted curves *)

Lemma strictly_increasing_cons (t : Q) (ts : list Q) :
  strictly_increasing (t :: ts) ->
  strictly_increasing ts /\ (forall x, x ∈ ts -> (t < x)%Q).
Proof.
  intros H. split.
  - intros i j a b Hi Hj Hij. apply (H (S i) (S j)); auto with lia.
  - intros x Hx. apply list_elem_of_lookup in Hx as [i Hi].
    apply (H 0%nat (S i)); auto with lia.
Qed.


Lemma elem_of_temps (p : Q * Z) (c : Curve) : p ∈ c -> p.1 ∈ temps c.
Proof. intros H. unfold temps. apply list_elem_of_fmap. eauto. Qed.





(** ** The curve evaluator *)




Lemma lerp_curve_below (temp : Q) (curve : Curve) (t_first : Q) (d_first : Z) :
  head curve = Some (t_first, d_first) ->
  (temp <= t_first)%Q -> lerp_curve temp curve = Ok d_first.
Proof.
  intros Hh Hle. destruct curve as [|p0 c]; [discriminate|].
  injection Hh as ->.
  destruct (last ((t_first, d_first) :: c)) as [[tl dl]|] eqn:El.
  - rewrite (lerp_curve_unfold _ _ _ _ _ El). cbn [fst snd].
    now rewrite Qle_bool_true.
  - apply last_None in El. discriminate.
Qed.

(** The last point of a sorted curve: alone, or strictly above the first. *)
Lemma last_sorted (p0 : Q * Z) (c : Curve) (pl : Q * Z) :
  last (p0 :: c) = Some pl ->
  strictly_increasing (temps (p0 :: c)) ->
  pl = p0 \/ (p0.1 < pl.1)%Q.
Proof.
  intros Hl Hs. apply last_cons_elem in Hl as [[-> _]|Hin]; [now left|].
  right. apply strictly_increasing_cons in Hs as [_ Hs].
  apply Hs. now apply elem_of_temps.
Qed.

Lemma lerp_curve_above (temp : Q) (curve : Curve) (t_last : Q) (d_last : Z) :
  last curve = Some (t_last, d_last) ->
  strictly_increasing (temps curve) ->
  (t_last <= temp)%Q -> lerp_curve temp curve = Ok d_last.
Proof.
  intros Hl Hs Hle. destruct curve as [|[t0 d0] c]; [discriminate|].
  rewrite (lerp_curve_unfold _ _ _ _ _ Hl). cbn [fst snd].
  destruct (last_sorted _ _ _ Hl Hs) as [E|Hlt].
  - injection E as -> ->.
    destruct (Qle_bool temp t0); [reflexivity|].
    now rewrite Qle_bool_true.
  - cbn [fst] in Hlt. rewrite (Qle_bool_lt_false temp t0) by lra.
    now rewrite Qle_bool_true.
Qed.

(** C3.  On a curve with at least one point and strictly increasing
    temperatures, a temperature at or below the first point's gives the
    first point's duty and one at or above the last point's gives the last
    point's duty; on the default CPU curve 30 and 40 give 20, 85 and 90
    give 100. *)
Theorem lerp_curve_clamps_at_ends (temp : Q) (curve : Curve)
  (t_first : Q) (d_first : Z) (t_last : Q) (d_last : Z) :
  head curve = Some (t_first, d_first) ->
  last curve = Some (t_last, d_last) ->
  strictly_increasing (temps curve) ->
  ((temp <= t_first)%Q -> lerp_curve temp curve = Ok d_first) /\
  ((t_last <= temp)%Q -> lerp_curve temp curve = Ok d_last) /\
  lerp_curve 30 [(40%Q, 20); (55%Q, 35); (65%Q, 55); (75%Q, 75); (85%Q, 100)]
  = Ok 20 /\
  lerp_curve 90 [(40%Q, 20); (55%Q, 35); (65%Q, 55); (75%Q, 75); (85%Q, 100)]
  = Ok 100 /\
  lerp_curve 40 [(40%Q, 20); (55%Q, 35); (65%Q, 55); (75%Q, 75); (85%Q, 100)]
  = Ok 20 /\
  lerp_curve 85 [(40%Q, 20); (55%Q, 35); (65%Q, 55); (75%Q, 75); (85%Q, 100)]
  = Ok 100.
Proof.
  intros Hh Hl Hs.
  split; [now apply lerp_curve_below|].
  split; [now apply lerp_curve_above|].
  repeat split; reflexivity.
Qed.

(** The strict order of a list of temperatures, decided pair by pair. *)
Lemma strictly_increasing_adjacent (ts : list Q) :
  (forall i a b, ts !! i = Some a -> ts !! S i = Some b -> (a < b)%Q) ->
  strictly_increasing ts.
Proof.
  intros Hadj i j. revert i.
  induction j as [|j IH]; intros i a b Hi Hj Hij; [lia|].
  destruct (decide (i = j)) as [->|Hne].
  - eauto.
  - destruct (lookup_lt_is_Some_2 ts j) as [m Hm].
    { apply lookup_lt_Some in Hj. lia. }
    apply Qlt_trans with m; [apply (IH i); auto with lia|eauto].
Qed.

Lemma default_cpu_curve_increasing :
  strictly_increasing (temps (cpu_curve DEFAULT_CONFIG)).
Proof.
  apply strictly_increasing_adjacent. intros i a b Hi Hj.
  do 4 (destruct i as [|i];
        [injection Hi as <-; injection Hj as <-; reflexivity|]).
  destruct i; discriminate.
Qed.

Lemma lerp_curve_clamps_at_ends_witness :
  ((39 <= 40)%Q -> lerp_curve 39 (cpu_curve DEFAULT_CONFIG) = Ok 20) /\
  ((85 <= 39)%Q -> lerp_curve 39 (cpu_curve DEFAULT_CONFIG) = Ok 100) /\
  lerp_curve 30 [(40%Q, 20); (55%Q, 35); (65%Q, 55); (75%Q, 75); (85%Q, 100)]
  = Ok 20 /\
  lerp_curve 90 [(40%Q, 20); (55%Q, 35); (65%Q, 55); (75%Q, 75); (85%Q, 100)]
  = Ok 100 /\
  lerp_curve 40 [(40%Q, 20); (55%Q, 35); (65%Q, 55); (75%Q, 75); (85%Q, 100)]
  = Ok 20 /\
  lerp_curve 85 [(40%Q, 20); (55%Q, 35); (65%Q, 55); (75%Q, 75); (85%Q, 100)]
  = Ok 100.
Proof.
  apply (lerp_curve_clamps_at_ends 39 (cpu_curve DEFAULT_CONFIG) 40 20 85 100).
  - reflexivity.
  - reflexivity.
  - exact default_cpu_curve_increasing.
Defined.








(** ** The duty clamp and the writes *)

Section WritesOnly.
Context {E : Type} (P : string * string -> Prop).

Lemma writes_only_ret {A : Type} (a : A) : writes_only P (ret (E:=E) a).
Proof. intros s. exists []. rewrite app_nil_r. auto. Qed.

Lemma writes_only_raise {A : Type} (e : E) : writes_only P (raise (A:=A) e).
Proof. intros s. exists []. rewrite app_nil_r. auto. Qed.

Lemma writes_only_lift {A : Type} (r : res E A) : writes_only P (lift r).
Proof. intros s. exists []. rewrite app_nil_r. auto. Qed.

Lemma writes_only_log (lvl : level) (msg : string) :
  writes_only P (log (E:=E) lvl msg).
Proof. intros s. exists []. rewrite app_nil_r. auto. Qed.

Lemma writes_only_bind {A B : Type} (m : M E A) (k : A -> M E B) :
  writes_only P m -> (forall a, writes_only P (k a)) ->
  writes_only P (mbind' m k).
Proof.
  intros Hm Hk s. unfold mbind'.
  destruct (Hm s) as (n1 & E1 & F1).
  destruct (m s) as [[a|e] s1]; cbn [snd] in *.
  - destruct (Hk a s1) as (n2 & E2 & F2).
    exists (n1 ++ n2). rewrite E2, E1, app_assoc. split; [reflexivity|].
    now apply Forall_app.
  - eauto.
Qed.
End WritesOnly.

Lemma writes_only_try (P : string * string -> Prop) {A : Type}
  (body : M exception A) (handler : exception -> M exception A) :
  writes_only P body -> (forall e, writes_only P (handler e)) ->
  writes_only P (try_except body handler).
Proof.
  intros Hm Hk s. unfold try_except.
  destruct (Hm s) as (n1 & E1 & F1).
  destruct (body s) as [[a|e] s1]; cbn [snd] in *.
  - eauto.
  - destruct (Hk e s1) as (n2 & E2 & F2).
    exists (n1 ++ n2). rewrite E2, E1, app_assoc. split; [reflexivity|].
    now apply Forall_app.
Qed.

Lemma writes_only_write_duty (cfg : Config) (fs : Sysfs) (path : string) (duty : Z) :
  path = fan1_path cfg \/ path = fan2_path cfg ->
  writes_only (clamped_write cfg)
    (write_duty fs path duty (min_duty cfg) (max_duty cfg)).
Proof.
  intros Hp s. unfold write_duty.
  destruct (write_file fs path _) as [[]|e]; cbn [snd written].
  - eexists [_]. split; [reflexivity|].
    apply Forall_singleton. split; [exact Hp|]. now exists duty.
  - exists []. rewrite app_nil_r. auto.
Qed.

Ltac writes_only_step :=
  lazymatch goal with
  | |- forall _, _ => intro
  | |- writes_only _ (mbind' _ _) => apply writes_only_bind
  | |- writes_only _ (try_except _ _) => apply writes_only_try
  | |- writes_only _ (lift _) => apply writes_only_lift
  | |- writes_only _ (log _ _) => apply writes_only_log
  | |- writes_only _ (write_duty _ _ _ _ _) =>
      apply writes_only_write_duty; auto
  end.

Lemma writes_only_tick (cfg : Config) (cpu mem : list string) (fs : Sysfs) :
  writes_only (clamped_write cfg) (tick cfg cpu mem fs).
Proof.
  unfold tick, tick_body, failsafe_body. repeat writes_only_step.
Qed.

Lemma writes_only_sleep (P : string * string -> Prop) (secs : Q) :
  writes_only P (sleep secs).
Proof.
  unfold sleep. destruct (Qle_bool 0 secs);
    [apply writes_only_ret|apply writes_only_raise].
Qed.

Lemma writes_only_main_loop (cfg : Config) (cpu mem : list string)
  (moments : list Moment) :
  writes_only (clamped_write cfg) (main_loop cfg cpu mem moments).
Proof.
  induction moments as [|m rest IH]; cbn [main_loop].
  - apply writes_only_ret.
  - destruct (running m); [|apply writes_only_ret].
    apply writes_only_bind; [apply writes_only_tick|intros _].
    apply writes_only_bind; [apply writes_only_sleep|intros _]. exact IH.
Qed.

(** C9.  [clamp_duty duty lo hi] is [max lo (min duty hi)]; it is
    idempotent; its result lies in [[lo, hi]] when [lo <= hi]; and every
    text the loop writes, the failsafe one included, goes to a fan path and
    is the decimal text of a duty that went through [clamp_duty] with the
    configured bounds. *)
Theorem clamp_duty_spec :
  (forall duty lo hi : Z, clamp_duty duty lo hi = Z.max lo (Z.min duty hi)) /\
  (forall x lo hi : Z,
      clamp_duty (clamp_duty x lo hi) lo hi = clamp_duty x lo hi) /\
  (forall x lo hi : Z, lo <= hi -> lo <= clamp_duty x lo hi <= hi) /\
  (forall (cfg : Config) (cpu mem : list string) (moments : list Moment)
          (s : Store),
      exists new : list (string * string),
        written (main_loop cfg cpu mem moments s).2 = written s ++ new /\
        Forall (clamped_write cfg) new).
Proof.
  unfold clamp_duty. repeat split; try lia.
  intros cfg cpu mem moments. apply writes_only_main_loop.
Qed.

Lemma clamp_duty_spec_witness : 20 <= clamp_duty 150 20 100 <= 100.
Proof.
  destruct clamp_duty_spec as (_ & _ & H & _). apply H. lia.
Defined.

(** ** Curve construction *)









(** ** Temperature sampling *)

Lemma read_inputs_elem (fs : Sysfs) (inputs : list string) (q : Q) :
  q ∈ read_inputs fs inputs <->
  exists input, input ∈ inputs /\ read_temp_millic fs input = Ok q.
Proof.
  induction inputs as [|t rest IH]; cbn [read_inputs].
  - split; [intros H; inversion H|intros (i & H & _); inversion H].
  - destruct (read_temp_millic fs t) as [v|e] eqn:E.
    + rewrite elem_of_cons, IH. split.
      * intros [->|(i & Hi & Hr)]; [exists t|exists i]; split; auto;
          (left + right); auto.
      * intros (i & Hi & Hr). apply elem_of_cons in Hi as [->|Hi].
        -- left. congruence.
        -- right. eauto.
    + rewrite IH. split.
      * intros (i & Hi & Hr). exists i. split; [now right|assumption].
      * intros (i & Hi & Hr). apply elem_of_cons in Hi as [->|Hi];
          [congruence|eauto].
Qed.

Lemma collect_temps_elem (fs : Sysfs) (hwmon_paths : list string) (q : Q) :
  q ∈ collect_temps fs hwmon_paths <->
  exists hwmon input,
    hwmon ∈ hwmon_paths /\
    input ∈ glob fs (path_join hwmon "temp*_input") /\
    read_temp_millic fs input = Ok q.
Proof.
  induction hwmon_paths as [|h rest IH]; cbn [collect_temps].
  - split; [intros H; inversion H|intros (a & b & H & _); inversion H].
  - rewrite elem_of_app, read_inputs_elem, IH. split.
    + intros [(i & Hi & Hr)|(a & i & Ha & Hi & Hr)].
      * exists h, i. repeat split; auto. left.
      * exists a, i. repeat split; auto. now right.
    + intros (a & i & Ha & Hi & Hr). apply elem_of_cons in Ha as [->|Ha].
      * left. eauto.
      * right. eauto.
Qed.

Lemma py_max_spec (l : list Q) :
  forall best : Q,
    py_max best l ∈ best :: l /\
    forall q, q ∈ best :: l -> (q <= py_max best l)%Q.
Proof.
  induction l as [|x rest IH]; intros best; cbn [py_max].
  - split; [left|]. intros q Hq. apply list_elem_of_singleton in Hq as ->. lra.
  - destruct (Qle_bool x best) eqn:E.
    + apply Qle_bool_iff in E. destruct (IH best) as [Hin Hmax]. split.
      * apply elem_of_cons in Hin as [->|Hin]; [left|right; now right].
      * intros q Hq. apply elem_of_cons in Hq as [->|Hq]; [apply Hmax; left|].
        apply elem_of_cons in Hq as [->|Hq].
        -- apply Qle_trans with best; [assumption|apply Hmax; left].
        -- apply Hmax. now right.
    + apply Qle_bool_false in E. destruct (IH x) as [Hin Hmax]. split.
      * right. assumption.
      * intros q Hq. apply elem_of_cons in Hq as [->|Hq].
        -- apply Qle_trans with x; [lra|apply Hmax; left].
        -- apply Hmax. assumption.
Qed.


(** ** Sensor resolution *)

Lemma first_occurrences_elem (l : list string) (x : string) :
  x ∈ first_occurrences l <-> x ∈ l.
Proof.
  induction l as [|y rest IH]; cbn [first_occurrences]; [reflexivity|].
  rewrite !elem_of_cons, list_elem_of_filter, IH.
  destruct (decide (x = y)); tauto.
Qed.

Lemma first_occurrences_NoDup (l : list string) : NoDup (first_occurrences l).
Proof.
  induction l as [|y rest IH]; cbn [first_occurrences]; [constructor|].
  apply NoDup_cons. split.
  - rewrite list_elem_of_filter. tauto.
  - now apply NoDup_filter.
Qed.

Lemma filter_all {A : Type} (P : A -> Prop) `{!forall x, Decision (P x)}
  (l : list A) :
  (forall x, P x) -> filter P l = l.
Proof.
  intros Hall. induction l as [|a l IH]; [reflexivity|].
  rewrite filter_cons_True by apply Hall. now rewrite IH.
Qed.

Lemma first_occurrences_app (l k : list string) :
  first_occurrences (l ++ k)
  = first_occurrences l ++ filter (fun y => y ∉ l) (first_occurrences k).
Proof.
  induction l as [|x l IH]; cbn [app first_occurrences].
  - symmetry. apply filter_all. intros y. apply not_elem_of_nil.
  - rewrite IH, filter_app. cbn [app]. do 2 f_equal.
    rewrite list_filter_filter. apply list_filter_iff.
    intros y. rewrite not_elem_of_cons. tauto.
Qed.

(** The inner loop of [resolve_hwmons] appends the sources not seen yet,
    each once, as long as [seen] holds exactly the items of [dedup]. *)
Lemma add_unseen_spec (found : list string) :
  forall (dedup : list string) (seen : gset string),
    (forall x, x ∈ seen <-> x ∈ dedup) ->
    (add_unseen found (dedup, seen)).1
    = dedup ++ filter (fun y => y ∉ dedup) (first_occurrences found) /\
    (forall x, x ∈ (add_unseen found (dedup, seen)).2
               <-> x ∈ (add_unseen found (dedup, seen)).1).
Proof.
  induction found as [|h rest IH]; intros dedup seen Hinv;
    cbn [add_unseen first_occurrences fst snd].
  - rewrite filter_nil, app_nil_r. auto.
  - destruct (decide (h ∈ seen)) as [Hs|Hs].
    + destruct (IH dedup seen Hinv) as [-> Hinv']. split; [|exact Hinv'].
      f_equal. rewrite filter_cons_False by (rewrite <- Hinv; tauto).
      symmetry. apply list_filter_filter_l.
      intros x Hx ->. apply Hx, Hinv, Hs.
    + assert (Hinv2 : forall x, x ∈ {[h]} ∪ seen <-> x ∈ dedup ++ [h]).
      { intros x. rewrite elem_of_union, elem_of_singleton, elem_of_app,
          list_elem_of_singleton, Hinv. tauto. }
      destruct (IH _ _ Hinv2) as [-> Hinv']. split; [|exact Hinv'].
      rewrite filter_cons_True by (rewrite <- Hinv; exact Hs).
      rewrite <- app_assoc. cbn [app]. do 2 f_equal.
      rewrite list_filter_filter. apply list_filter_iff.
      intros y. rewrite elem_of_app, list_elem_of_singleton. tauto.
Qed.

Section Resolve.
Variable fs : Sysfs.

(** Every [name] attribute under the sources listed can be read or is
    missing: the errors [find_hwmons_by_name] lets through do not occur. *)
Hypothesis names_readable :
  forall (p : string) (e : exception),
    p ∈ glob fs "/sys/class/hwmon/hwmon*" ->
    read_file fs (path_join p "name") = Raise e ->
    exists q, e = FileNotFoundError q.

Lemma scan_hwmons_matching (name : string) (ps : list string) :
  (forall p, p ∈ ps -> p ∈ glob fs "/sys/class/hwmon/hwmon*") ->
  scan_hwmons fs name ps = Ok (filter (name_matches fs name) ps).
Proof.
  induction ps as [|p rest IH]; intros Hsub; [reflexivity|].
  cbn [scan_hwmons].
  assert (Hrest : forall q, q ∈ rest -> q ∈ glob fs "/sys/class/hwmon/hwmon*")
    by (intros q Hq; apply Hsub; now right).
  specialize (IH Hrest).
  destruct (read_file fs (path_join p "name")) as [text|e] eqn:E.
  - rewrite IH. cbn [bind]. f_equal.
    destruct (String.eqb (strip text) name) eqn:Eq.
    + apply String.eqb_eq in Eq. rewrite filter_cons_True; [reflexivity|].
      exists text. auto.
    + apply String.eqb_neq in Eq. rewrite filter_cons_False; [reflexivity|].
      intros (t & Ht & Hn). congruence.
  - destruct (names_readable p e (Hsub p ltac:(left)) E) as [q ->].
    rewrite IH, filter_cons_False; [reflexivity|].
    intros (t & Ht & _). congruence.
Qed.

Lemma find_hwmons_by_name_matching (name : string) :
  find_hwmons_by_name fs name = Ok (matching fs name).
Proof. apply scan_hwmons_matching. auto. Qed.

Lemma resolve_loop_spec (names : list string) :
  forall (dedup : list string) (seen : gset string),
    (forall x, x ∈ seen <-> x ∈ dedup) ->
    resolve_loop fs names (dedup, seen)
    = Ok (dedup ++ filter (fun y => y ∉ dedup)
                     (first_occurrences (all_matches fs names))).
Proof.
  induction names as [|name rest IH]; intros dedup seen Hinv;
    cbn [resolve_loop all_matches first_occurrences fst].
  - now rewrite filter_nil, app_nil_r.
  - rewrite find_hwmons_by_name_matching. cbn [bind].
    destruct (add_unseen_spec (matching fs name) dedup seen Hinv) as [E Hinv'].
    destruct (add_unseen (matching fs name) (dedup, seen)) as [d' s'].
    cbn [fst snd] in *. subst d'. rewrite (IH _ _ Hinv').
    rewrite first_occurrences_app, filter_app, <- app_assoc. do 3 f_equal.
    rewrite list_filter_filter. apply list_filter_iff.
    intros y. rewrite elem_of_app, list_elem_of_filter, first_occurrences_elem.
    tauto.
Qed.
End Resolve.

Lemma all_matches_elem (fs : Sysfs) (names : list string) (h : string) :
  h ∈ all_matches fs names <->
  exists name,
    name ∈ names /\ h ∈ glob fs "/sys/class/hwmon/hwmon*" /\
    name_matches fs name h.
Proof.
  induction names as [|n rest IH]; cbn [all_matches].
  - split; [intros H; inversion H|intros (x & H & _); inversion H].
  - rewrite elem_of_app, IH. unfold matching. rewrite list_elem_of_filter. split.
    + intros [[Hm Hg]|(x & Hx & Hg & Hm)].
      * exists n. repeat split; auto. left.
      * exists x. repeat split; auto. now right.
    + intros (x & Hx & Hg & Hm). apply elem_of_cons in Hx as [->|Hx].
      * left. auto.
      * right. eauto.
Qed.

(** C7.  When every [name] attribute can be read or is missing,
    [resolve_hwmons] returns the sources whose name is one of the names
    given, each once, where it was first seen going through the names in
    order and, for each name, through the sources as listed; a name that
    matches nothing adds nothing. *)
Theorem resolve_hwmons_dedup (fs : Sysfs) (names : list string) :
  (forall (p : string) (e : exception),
      p ∈ glob fs "/sys/class/hwmon/hwmon*" ->
      read_file fs (path_join p "name") = Raise e ->
      exists q, e = FileNotFoundError q) ->
  exists l : list string,
    resolve_hwmons fs names = Ok l /\
    NoDup l /\
    (forall h : string,
        h ∈ l <->
        exists name,
          name ∈ names /\ h ∈ glob fs "/sys/class/hwmon/hwmon*" /\
          name_matches fs name h) /\
    l = first_occurrences (all_matches fs names).
Proof.
  intros Hread. exists (first_occurrences (all_matches fs names)).
  split; [|split; [apply first_occurrences_NoDup|split; [|reflexivity]]].
  - unfold resolve_hwmons.
    rewrite (resolve_loop_spec fs Hread names [] ∅) by set_solver.
    cbn [app]. f_equal. apply filter_all. intros y. apply not_elem_of_nil.
  - intros h. rewrite first_occurrences_elem. apply all_matches_elem.
Qed.

Lemma example_sysfs_names_readable (p : string) (e : exception) :
  p ∈ glob example_sysfs "/sys/class/hwmon/hwmon*" ->
  read_file example_sysfs (path_join p "name") = Raise e ->
  exists q, e = FileNotFoundError q.
Proof.
  intros Hp. cbn in Hp.
  repeat (apply elem_of_cons in Hp as [->|Hp]); [| | |inversion Hp];
    cbn; intros [= <-]; eauto.
Qed.

Lemma resolve_hwmons_dedup_witness :
  exists l : list string,
    resolve_hwmons example_sysfs ["k10temp"; "nct6799"; "spd5118"; "k10temp"]
    = Ok l /\
    NoDup l /\
    (forall h : string,
        h ∈ l <->
        exists name,
          name ∈ ["k10temp"; "nct6799"; "spd5118"; "k10temp"] /\
          h ∈ glob example_sysfs "/sys/class/hwmon/hwmon*" /\
          name_matches example_sysfs name h) /\
    l = first_occurrences
          (all_matches example_sysfs
             ["k10temp"; "nct6799"; "spd5118"; "k10temp"]).
Proof.
  apply (resolve_hwmons_dedup example_sysfs
           ["k10temp"; "nct6799"; "spd5118"; "k10temp"]).
  exact example_sysfs_names_readable.
Defined.

(** ** Startup *)

(** C8.  With both resolutions returning: when the memory group is empty,
    the CPU group is not and the fallback flag is set, [startup] returns
    the CPU group for both channels and logs a warning; when the memory
    group is empty and the flag is not set, or the CPU group is empty,
    [startup] raises [SystemExit] with a message, so [main] ends with a
    non-zero exit status whatever the loop would have met, nothing
    written. *)
Theorem startup_fallback (cfg : Config) (fs : Sysfs) (s : Store)
  (cpu mem : list string) :
  resolve_hwmons fs (cpu_sensor_names cfg) = Ok cpu ->
  resolve_hwmons fs (mem_sensor_names cfg) = Ok mem ->
  (mem = [] -> cpu <> [] -> mem_fallback_to_cpu cfg = true ->
   exists s' : Store,
     startup cfg fs s = (Ok (cpu, cpu), s') /\
     (WARNING, "memory hwmon not found, fallback to CPU sensor") ∈ logged s' /\
     written s' = written s) /\
  (mem = [] /\ mem_fallback_to_cpu cfg = false \/ cpu = [] ->
   exists msg : string,
     startup cfg fs s = (Raise (SystemExit (ExitMessage msg)), s) /\
     forall moments : list Moment,
       main cfg fs moments s = (Raise (SystemExit (ExitMessage msg)), s) /\
       exists n : Z,
         exit_of (main cfg fs moments s).1 = Some n /\ n <> 0).
Proof.
  intros Hcpu Hmem. split.
  - intros -> Hne Hfb. unfold startup, mbind', uncaught, lift.
    rewrite Hcpu, Hmem, Hfb. destruct cpu as [|h cpu]; [congruence|].
    cbn. eexists. split; [reflexivity|]. cbn. split; [|reflexivity].
    rewrite !elem_of_app. left. left. right. left.
  - intros Hexit.
    assert (Hs : exists msg,
               startup cfg fs s = (Raise (SystemExit (ExitMessage msg)), s)).
    { unfold startup, mbind', uncaught, lift. rewrite Hcpu, Hmem.
      destruct cpu as [|h cpu]; [cbn; eauto|].
      destruct Hexit as [[-> Hfb]|Hc]; [|discriminate].
      rewrite Hfb. cbn. eauto. }
    destruct Hs as [msg Hs]. exists msg. split; [exact Hs|].
    intros moments. unfold main, mbind'. rewrite Hs. split; [reflexivity|].
    exists 1. split; [reflexivity|lia].
Qed.

Lemma startup_fallback_witness :
  exists s' : Store,
    startup no_mem_config example_sysfs empty_store
    = (Ok (["/sys/class/hwmon/hwmon0"], ["/sys/class/hwmon/hwmon0"]), s') /\
    (WARNING, "memory hwmon not found, fallback to CPU sensor") ∈ logged s' /\
    written s' = written empty_store.
Proof.
  apply (startup_fallback no_mem_config example_sysfs empty_store
           ["/sys/class/hwmon/hwmon0"] []).
  - vm_compute. reflexivity.
  - vm_compute. reflexivity.
  - reflexivity.
  - discriminate.
  - reflexivity.
Defined.

(** ** The loop and its failsafe *)







(** * Further properties of the code *)

(** ** The curve evaluator on any curve *)








(** ** The duty clamp *)

(** X3.  [clamp_duty] leaves a duty within the bounds as it is and is
    monotone in the duty; when the bounds are inverted, [max_duty] below
    [min_duty], it returns [min_duty] whatever the duty. *)
Theorem clamp_duty_shape :
  (forall duty lo hi : Z, lo <= duty <= hi -> clamp_duty duty lo hi = duty) /\
  (forall a b lo hi : Z, a <= b -> clamp_duty a lo hi <= clamp_duty b lo hi) /\
  (forall duty lo hi : Z, hi < lo -> clamp_duty duty lo hi = lo).
Proof. unfold clamp_duty. repeat split; intros; lia. Qed.

(** ** Curve construction on any raw list *)






Lemma convert_points_malformed (key : string) (pre : list raw_point)
  (points : Curve) (bad : raw_point) (post : list raw_point) :
  well_formed_raw pre points -> malformed bad ->
  forall idx : nat,
    convert_points key idx (pre ++ bad :: post)
    = Raise (ValueError (key +:+ "[" +:+ py_str_nat (idx + length pre)
                           +:+ "] must be [temp_c, duty]")).
Proof.
  intros Hwf Hbad.
  induction Hwf as [|r [t d] pre points (p0 & p1 & -> & H0 & H1) _ IH]; intros idx.
  - cbn [app length]. rewrite Nat.add_0_r. cbn [convert_points].
    destruct bad as [[|p0 [|p1 [|p2 items]]]|]; try reflexivity. contradiction.
  - cbn [app convert_points length]. cbn [fst snd] in H0, H1.
    rewrite H0, H1. cbn [bind]. rewrite IH. cbn [bind].
    now rewrite Nat.add_succ_r.
Qed.

(** X5.  When the entries before it are well formed, the first entry that
    is not a list or tuple of two items makes [parse_curve] raise a
    [ValueError] that names the key and the index of that entry, whatever
    comes after it and whatever the order of the temperatures. *)
Theorem parse_curve_reports_malformed (key : string) (pre : list raw_point)
  (points : Curve) (bad : raw_point) (post : list raw_point) :
  well_formed_raw pre points ->
  malformed bad ->
  parse_curve (pre ++ bad :: post) key
  = Raise (ValueError (key +:+ "[" +:+ py_str_nat (length pre)
                         +:+ "] must be [temp_c, duty]")).
Proof.
  intros Hwf Hbad. unfold parse_curve.
  now rewrite (convert_points_malformed key pre points bad post Hwf Hbad 0).
Qed.

Lemma parse_curve_reports_malformed_witness :
  parse_curve
    (raw_of_ints [(60, 10); (50, 20)]
       ++ RSeq [py_of_int 70] :: raw_of_ints [(80, 30)]) "curves.cpu"
  = Raise (ValueError "curves.cpu[2] must be [temp_c, duty]").
Proof.
  apply (parse_curve_reports_malformed "curves.cpu"
           (raw_of_ints [(60, 10); (50, 20)]) [(60%Q, 10); (50%Q, 20)]).
  - repeat constructor; eexists _, _; repeat split; reflexivity.
  - exact I.
Defined.

(** ** Errors of the sensor resolution *)

Lemma scan_hwmons_raises (fs : Sysfs) (name : string) (pre : list string)
  (p : string) (post : list string) (e : exception) :
  Forall (name_readable fs) pre ->
  read_file fs (path_join p "name") = Raise e ->
  (forall q, e <> FileNotFoundError q) ->
  scan_hwmons fs name (pre ++ p :: post) = Raise e.
Proof.
  intros Hpre Hp He.
  induction Hpre as [|q pre Hq _ IH]; cbn [app scan_hwmons].
  - rewrite Hp. destruct e; try reflexivity. now destruct (He path).
  - unfold name_readable in Hq.
    destruct (read_file fs (path_join q "name")) as [text|[]];
      try contradiction; rewrite IH; reflexivity.
Qed.

(** X6.  When the [name] attribute of a source cannot be read for another
    reason than being missing, and those of the sources listed before it
    can be read or are missing, [find_hwmons_by_name] raises that error
    for every name, and so does [resolve_hwmons] on every list with a name
    in it; on the empty list [resolve_hwmons] returns the empty list
    without a look at the tree. *)
Theorem resolve_hwmons_propagates (fs : Sysfs) (pre : list string) (p : string)
  (post : list string) (e : exception) :
  glob fs "/sys/class/hwmon/hwmon*" = pre ++ p :: post ->
  Forall (name_readable fs) pre ->
  read_file fs (path_join p "name") = Raise e ->
  (forall q, e <> FileNotFoundError q) ->
  (forall name : string, find_hwmons_by_name fs name = Raise e) /\
  (forall (name : string) (rest : list string),
      resolve_hwmons fs (name :: rest) = Raise e) /\
  resolve_hwmons fs [] = Ok [].
Proof.
  intros Hg Hpre Hp He.
  assert (Hf : forall name, find_hwmons_by_name fs name = Raise e).
  { intros name. unfold find_hwmons_by_name. rewrite Hg.
    now apply scan_hwmons_raises. }
  split; [exact Hf|]. split; [|reflexivity].
  intros name rest. unfold resolve_hwmons. cbn [resolve_loop].
  now rewrite Hf.
Qed.

Lemma resolve_hwmons_propagates_witness :
  (forall name : string,
      find_hwmons_by_name locked_sysfs name
      = Raise (PermissionError "/sys/class/hwmon/hwmon2/name")) /\
  (forall (name : string) (rest : list string),
      resolve_hwmons locked_sysfs (name :: rest)
      = Raise (PermissionError "/sys/class/hwmon/hwmon2/name")) /\
  resolve_hwmons locked_sysfs [] = Ok [].
Proof.
  apply (resolve_hwmons_propagates locked_sysfs
           ["/sys/class/hwmon/hwmon0"; "/sys/class/hwmon/hwmon1"]
           "/sys/class/hwmon/hwmon2" []).
  - reflexivity.
  - repeat constructor.
  - reflexivity.
  - discriminate.
Defined.

(** ** Sampling and the set of sources *)

Lemma max_temp_in_hwmons_ok (fs : Sysfs) (hwmon_paths : list string) (m : Q) :
  max_temp_in_hwmons fs hwmon_paths = Ok m ->
  m ∈ collect_temps fs hwmon_paths /\
  forall q, q ∈ collect_temps fs hwmon_paths -> (q <= m)%Q.
Proof.
  unfold max_temp_in_hwmons.
  destruct (collect_temps fs hwmon_paths) as [|t rest]; [discriminate|].
  intros [= <-]. apply py_max_spec.
Qed.

Lemma max_temp_in_hwmons_some (fs : Sysfs) (hwmon_paths : list string) (q : Q) :
  q ∈ collect_temps fs hwmon_paths ->
  exists m, max_temp_in_hwmons fs hwmon_paths = Ok m.
Proof.
  unfold max_temp_in_hwmons.
  destruct (collect_temps fs hwmon_paths) as [|t rest]; [inversion 1|eauto].
Qed.

Lemma collect_temps_subset (fs : Sysfs) (A B : list string) (q : Q) :
  (forall h, h ∈ A -> h ∈ B) ->
  q ∈ collect_temps fs A -> q ∈ collect_temps fs B.
Proof.
  intros Hsub. rewrite !collect_temps_elem.
  intros (h & i & Hh & Hi & Hr). exists h, i. auto.
Qed.

(** X7.  The sample of a group depends on which sources are in it, not
    on their order or repetition, and more sources never lower it: when
    the sample of a group returns, the sample of any group holding at
    least the same sources returns too, with a value at least as high,
    and an equal one when the two groups hold the same sources. *)
Theorem max_temp_in_hwmons_grows (fs : Sysfs) (A B : list string) (a : Q) :
  (forall h, h ∈ A -> h ∈ B) ->
  max_temp_in_hwmons fs A = Ok a ->
  exists b : Q,
    max_temp_in_hwmons fs B = Ok b /\ (a <= b)%Q /\
    ((forall h, h ∈ B -> h ∈ A) -> (a == b)%Q).
Proof.
  intros Hsub Ha.
  destruct (max_temp_in_hwmons_ok fs A a Ha) as [Hain Hamax].
  pose proof (collect_temps_subset fs A B a Hsub Hain) as HaB.
  destruct (max_temp_in_hwmons_some fs B a HaB) as [b Hb].
  destruct (max_temp_in_hwmons_ok fs B b Hb) as [Hbin Hbmax].
  exists b. split; [assumption|]. split; [now apply Hbmax|].
  intros Hsup. apply Qle_antisym; [now apply Hbmax|].
  apply Hamax. now apply (collect_temps_subset fs B A).
Qed.

Lemma max_temp_in_hwmons_grows_witness :
  exists b : Q,
    max_temp_in_hwmons example_sysfs
      ["/sys/class/hwmon/hwmon0"; "/sys/class/hwmon/hwmon1";
       "/sys/class/hwmon/hwmon0"] = Ok b /\
    (38.000 <= b)%Q /\
    ((forall h,
         h ∈ ["/sys/class/hwmon/hwmon0"; "/sys/class/hwmon/hwmon1";
              "/sys/class/hwmon/hwmon0"] ->
         h ∈ ["/sys/class/hwmon/hwmon1"]) -> (38.000 == b)%Q).
Proof.
  apply (max_temp_in_hwmons_grows example_sysfs ["/sys/class/hwmon/hwmon1"]).
  - intros h Hh. apply list_elem_of_singleton in Hh as ->. right. left.
  - vm_compute. reflexivity.
Defined.

(** ** Ticks *)

Lemma tick_body_without_reading (cfg : Config) (cpu mem : list string)
  (fs : Sysfs) (s : Store) :
  collect_temps fs cpu = [] \/ collect_temps fs mem = [] ->
  exists e, tick_body cfg cpu mem fs s = (Raise e, s).
Proof.
  intros H. unfold tick_body, mbind', lift.
  destruct (max_temp_in_hwmons fs cpu) as [cpu_t|e] eqn:Ec; [|eauto].
  destruct H as [H|H].
  - unfold max_temp_in_hwmons in Ec. rewrite H in Ec. discriminate.
  - unfold max_temp_in_hwmons. rewrite H. eauto.
Qed.

(** X9.  In a tick where one of the two groups gives no reading, no curve
    duty is written: the error is logged and the only writes of the tick
    are failsafe writes, none, the first fan's, or both in that order. *)
Theorem tick_without_reading (cfg : Config) (cpu mem : list string)
  (fs : Sysfs) (s : Store) :
  collect_temps fs cpu = [] \/ collect_temps fs mem = [] ->
  (ERROR, "fan loop error: %s; applying failsafe duty")
    ∈ logged (tick cfg cpu mem fs s).2 /\
  (written (tick cfg cpu mem fs s).2 = written s
   \/ written (tick cfg cpu mem fs s).2
      = written s ++ [(fan1_path cfg, failsafe_text cfg)]
   \/ written (tick cfg cpu mem fs s).2
      = written s ++ [(fan1_path cfg, failsafe_text cfg);
                      (fan2_path cfg, failsafe_text cfg)]).
Proof.
  intros H.
  destruct (tick_body_without_reading cfg cpu mem fs s H) as [e Hb].
  unfold tick, failsafe_body, try_except, write_duty, log, mbind'.
  rewrite Hb. fold (failsafe_text cfg). cbn [written logged].
  destruct (write_file fs (fan1_path cfg) _) as [[]|e1];
    [destruct (write_file fs (fan2_path cfg) _) as [[]|e2]|];
    cbn [fst snd written logged]; rewrite ?elem_of_app, ?list_elem_of_singleton;
    (split; [tauto|]).
  - right. right. now rewrite <- app_assoc.
  - right. left. reflexivity.
  - left. reflexivity.
Qed.

Lemma tick_without_reading_witness :
  (ERROR, "fan loop error: %s; applying failsafe duty")
    ∈ logged (tick DEFAULT_CONFIG ["/sys/class/hwmon/hwmon0"]
                ["/sys/class/hwmon/hwmon2"] example_sysfs empty_store).2 /\
  (written (tick DEFAULT_CONFIG ["/sys/class/hwmon/hwmon0"]
              ["/sys/class/hwmon/hwmon2"] example_sysfs empty_store).2
   = written empty_store
   \/ written (tick DEFAULT_CONFIG ["/sys/class/hwmon/hwmon0"]
                 ["/sys/class/hwmon/hwmon2"] example_sysfs empty_store).2
      = written empty_store
          ++ [(fan1_path DEFAULT_CONFIG, failsafe_text DEFAULT_CONFIG)]
   \/ written (tick DEFAULT_CONFIG ["/sys/class/hwmon/hwmon0"]
                 ["/sys/class/hwmon/hwmon2"] example_sysfs empty_store).2
      = written empty_store
          ++ [(fan1_path DEFAULT_CONFIG, failsafe_text DEFAULT_CONFIG);
              (fan2_path DEFAULT_CONFIG, failsafe_text DEFAULT_CONFIG)]).
Proof.
  apply (tick_without_reading DEFAULT_CONFIG ["/sys/class/hwmon/hwmon0"]
           ["/sys/class/hwmon/hwmon2"] example_sysfs empty_store).
  right. reflexivity.
Defined.

Lemma writes_only_weaken {E A : Type} (P P' : string * string -> Prop)
  (m : M E A) :
  (forall w, P w -> P' w) -> writes_only P m -> writes_only P' m.
Proof.
  intros HP Hm s. destruct (Hm s) as (new & E1 & F1).
  exists new. split; [assumption|]. eapply Forall_impl; eauto.
Qed.

(** X10.  With inverted bounds, [max_duty] below [min_duty], every text
    the loop writes is that of [min_duty], the failsafe writes included,
    whatever the temperatures, the curves and the failsafe duty. *)
Theorem inverted_bounds_pin_min_duty (cfg : Config) (cpu mem : list string)
  (moments : list Moment) (s : Store) :
  max_duty cfg < min_duty cfg ->
  exists new : list (string * string),
    written (main_loop cfg cpu mem moments s).2 = written s ++ new /\
    Forall (fun w => w.2 = py_str (min_duty cfg)) new.
Proof.
  intros Hinv.
  apply (writes_only_weaken (clamped_write cfg));
    [|apply writes_only_main_loop].
  intros w [_ [duty ->]]. f_equal. unfold clamp_duty. lia.
Qed.

Lemma inverted_bounds_pin_min_duty_witness :
  exists new : list (string * string),
    written (main_loop inverted_config ["/sys/class/hwmon/hwmon0"]
               ["/sys/class/hwmon/hwmon1"]
               [{| running := true; sysfs := example_sysfs |};
                {| running := true; sysfs := stuck_sysfs |}] empty_store).2
    = written empty_store ++ new /\
    Forall (fun w => w.2 = py_str (min_duty inverted_config)) new.
Proof.
  apply (inverted_bounds_pin_min_duty inverted_config). reflexivity.
Defined.

(** ** Shutdown and the poll interval *)








(** ** Startup, the other cases *)

(** X13.  When both groups resolve to sources, [startup] returns them as
    they are, whatever the fallback flag, logs two lines at level INFO and
    no warning, and writes nothing. *)
Theorem startup_keeps_groups (cfg : Config) (fs : Sysfs) (s : Store)
  (cpu mem : list string) :
  resolve_hwmons fs (cpu_sensor_names cfg) = Ok cpu ->
  resolve_hwmons fs (mem_sensor_names cfg) = Ok mem ->
  cpu <> [] -> mem <> [] ->
  startup cfg fs s
  = (Ok (cpu, mem),
     {| written := written s;
        logged := logged s ++ [(INFO, "cpu_hwmons=%s mem_hwmons=%s");
                               (INFO, "fan1=%s fan2=%s poll=%.2fs")] |}).
Proof.
  intros Hc Hm Hcn Hmn. unfold startup, mbind', uncaught, lift.
  rewrite Hc, Hm. destruct cpu as [|c cpu]; [congruence|].
  destruct mem as [|m mem]; [congruence|].
  cbn. now rewrite <- app_assoc.
Qed.

Lemma startup_keeps_groups_witness :
  startup DEFAULT_CONFIG example_sysfs empty_store
  = (Ok (["/sys/class/hwmon/hwmon0"], ["/sys/class/hwmon/hwmon1"]),
     {| written := written empty_store;
        logged := logged empty_store
                    ++ [(INFO, "cpu_hwmons=%s mem_hwmons=%s");
                        (INFO, "fan1=%s fan2=%s poll=%.2fs")] |}).
Proof.
  apply (startup_keeps_groups DEFAULT_CONFIG example_sysfs empty_store).
  - vm_compute. reflexivity.
  - vm_compute. reflexivity.
  - discriminate.
  - discriminate.
Defined.

(** X14.  An error raised while a group is resolved is not covered by the
    fallback: whether it comes from the CPU names or, the CPU names
    resolved, from the memory names, [main] ends with it uncaught, exit
    status 1, whatever the flag, with nothing logged or written and the
    loop not entered. *)
Theorem startup_resolve_error (cfg : Config) (fs : Sysfs) (e : exception) :
  resolve_hwmons fs (cpu_sensor_names cfg) = Raise e \/
  (exists cpu, resolve_hwmons fs (cpu_sensor_names cfg) = Ok cpu /\
               resolve_hwmons fs (mem_sensor_names cfg) = Raise e) ->
  forall (moments : list Moment) (s : Store),
    main cfg fs moments s = (Raise (Uncaught e), s) /\
    exit_of (main cfg fs moments s).1 = Some 1.
Proof.
  intros H moments s.
  assert (Hm : main cfg fs moments s = (Raise (Uncaught e), s)).
  { unfold main, startup, mbind', uncaught, lift.
    destruct H as [->|(cpu & -> & ->)]; reflexivity. }
  split; [exact Hm|]. now rewrite Hm.
Qed.

Lemma startup_resolve_error_witness :
  main DEFAULT_CONFIG locked_sysfs
    [{| running := true; sysfs := locked_sysfs |}] empty_store
  = (Raise (Uncaught (PermissionError "/sys/class/hwmon/hwmon2/name")),
     empty_store) /\
  exit_of (main DEFAULT_CONFIG locked_sysfs
             [{| running := true; sysfs := locked_sysfs |}] empty_store).1
  = Some 1.
Proof.
  apply (startup_resolve_error DEFAULT_CONFIG locked_sysfs).
  left. vm_compute. reflexivity.
Defined.

(** ** Configuration loading *)

Lemma override_inv {A : Type} (table : gmap string pyval) (key : string)
  (conv : pyval -> res exception A) (default x : A) :
  override table key conv default = Ok x ->
  (table !! key = None -> x = default) /\
  (forall v, table !! key = Some v -> conv v = Ok x).
Proof.
  unfold override. destruct (table !! key) as [v|].
  - intros H. split; [discriminate|]. now intros v' [= <-].
  - intros [= <-]. split; [reflexivity|discriminate].
Qed.

(** What a configuration [load_config] returned tells: the file was
    missing and it is the default one, or the file was loaded and each
    field is what its key gave. *)
Lemma load_config_inv (env : ConfigEnv) (path : string) (cfg : Config) :
  load_config env path = Ok cfg ->
  path_exists env path = false /\ cfg = DEFAULT_CONFIG
  \/ exists load data,
      path_exists env path = true /\ toml_reader env = Some load /\
      load path = Ok data /\
      override (general data) "fan1_path" (fun v => Ok (val_str v))
        (fan1_path DEFAULT_CONFIG) = Ok (fan1_path cfg) /\
      override (general data) "fan2_path" (fun v => Ok (val_str v))
        (fan2_path DEFAULT_CONFIG) = Ok (fan2_path cfg) /\
      override (general data) "poll_sec" val_float (poll_sec DEFAULT_CONFIG)
      = Ok (poll_sec cfg) /\
      override (general data) "min_duty" val_int (min_duty DEFAULT_CONFIG)
      = Ok (min_duty cfg) /\
      override (general data) "max_duty" val_int (max_duty DEFAULT_CONFIG)
      = Ok (max_duty cfg) /\
      override (general data) "failsafe_duty" val_int
        (failsafe_duty DEFAULT_CONFIG) = Ok (failsafe_duty cfg) /\
      override (sensors data) "cpu_names" val_strs
        (cpu_sensor_names DEFAULT_CONFIG) = Ok (cpu_sensor_names cfg) /\
      override (sensors data) "mem_names" val_strs
        (mem_sensor_names DEFAULT_CONFIG) = Ok (mem_sensor_names cfg) /\
      override (sensors data) "mem_fallback_to_cpu" (fun v => Ok (val_bool v))
        (mem_fallback_to_cpu DEFAULT_CONFIG) = Ok (mem_fallback_to_cpu cfg) /\
      override (curves data) "cpu"
        (fun v => bind (val_points v) (fun raw => parse_curve raw "curves.cpu"))
        (cpu_curve DEFAULT_CONFIG) = Ok (cpu_curve cfg) /\
      override (curves data) "mem"
        (fun v => bind (val_points v) (fun raw => parse_curve raw "curves.mem"))
        (mem_curve DEFAULT_CONFIG) = Ok (mem_curve cfg).
Proof.
  unfold load_config.
  destruct (path_exists env path) eqn:Ex; cbn [negb];
    [|intros [= <-]; left; auto].
  destruct (toml_reader env) as [load|]; [|discriminate].
  destruct (load path) as [data|e] eqn:El; [|discriminate]. cbn [bind].
  intros H. right. exists load, data.
  repeat match type of H with
         | bind ?m _ = Ok _ =>
             destruct m eqn:?; cbn [bind] in H; [|discriminate]
         end.
  injection H as <-. cbn [fan1_path fan2_path poll_sec min_duty max_duty
    failsafe_duty cpu_sensor_names mem_sensor_names mem_fallback_to_cpu
    cpu_curve mem_curve].
  repeat split; assumption || reflexivity.
Qed.

Lemma config_eq (a b : Config) :
  fan1_path a = fan1_path b -> fan2_path a = fan2_path b ->
  poll_sec a = poll_sec b -> min_duty a = min_duty b ->
  max_duty a = max_duty b -> failsafe_duty a = failsafe_duty b ->
  cpu_sensor_names a = cpu_sensor_names b ->
  mem_sensor_names a = mem_sensor_names b ->
  mem_fallback_to_cpu a = mem_fallback_to_cpu b ->
  cpu_curve a = cpu_curve b -> mem_curve a = mem_curve b -> a = b.
Proof. destruct a, b. cbn. intros. subst. reflexivity. Qed.

(** X15.  A configuration [load_config] returns is the default one when
    the file is missing; when the file was loaded, each field follows its
    own key and no other, [cpu_names] and [mem_names] of the sensors table
    and [cpu] and [mem] of the curves table included, so a file that sets
    nothing gives the default configuration too. *)
Theorem load_config_follows_keys (env : ConfigEnv) (path : string) (cfg : Config) :
  load_config env path = Ok cfg ->
  (path_exists env path = false -> cfg = DEFAULT_CONFIG) /\
  (forall load data,
      path_exists env path = true -> toml_reader env = Some load ->
      load path = Ok data ->
      field_follows (general data) "fan1_path" (fun v => Ok (val_str v))
        (fan1_path DEFAULT_CONFIG) (fan1_path cfg) /\
      field_follows (general data) "fan2_path" (fun v => Ok (val_str v))
        (fan2_path DEFAULT_CONFIG) (fan2_path cfg) /\
      field_follows (general data) "poll_sec" val_float
        (poll_sec DEFAULT_CONFIG) (poll_sec cfg) /\
      field_follows (general data) "min_duty" val_int
        (min_duty DEFAULT_CONFIG) (min_duty cfg) /\
      field_follows (general data) "max_duty" val_int
        (max_duty DEFAULT_CONFIG) (max_duty cfg) /\
      field_follows (general data) "failsafe_duty" val_int
        (failsafe_duty DEFAULT_CONFIG) (failsafe_duty cfg) /\
      field_follows (sensors data) "cpu_names" val_strs
        (cpu_sensor_names DEFAULT_CONFIG) (cpu_sensor_names cfg) /\
      field_follows (sensors data) "mem_names" val_strs
        (mem_sensor_names DEFAULT_CONFIG) (mem_sensor_names cfg) /\
      field_follows (sensors data) "mem_fallback_to_cpu"
        (fun v => Ok (val_bool v))
        (mem_fallback_to_cpu DEFAULT_CONFIG) (mem_fallback_to_cpu cfg) /\
      field_follows (curves data) "cpu"
        (fun v => bind (val_points v) (fun raw => parse_curve raw "curves.cpu"))
        (cpu_curve DEFAULT_CONFIG) (cpu_curve cfg) /\
      field_follows (curves data) "mem"
        (fun v => bind (val_points v) (fun raw => parse_curve raw "curves.mem"))
        (mem_curve DEFAULT_CONFIG) (mem_curve cfg) /\
      (general data = ∅ -> sensors data = ∅ -> curves data = ∅ ->
       cfg = DEFAULT_CONFIG)).
Proof.
  intros H. apply load_config_inv in H.
  destruct H as [[Hex ->]|(load & data & Hex & Hr & Hl & H)].
  - split; [reflexivity|]. intros load data Hex'. congruence.
  - split; [congruence|]. intros load' data' _ Hr' Hl'.
    rewrite Hr in Hr'. injection Hr' as <-.
    rewrite Hl in Hl'. injection Hl' as <-.
    destruct H as (H1 & H2 & H3 & H4 & H5 & H6 & H7 & H8 & H9 & H10 & H11).
    apply override_inv in H1, H2, H3, H4, H5, H6, H7, H8, H9, H10, H11.
    repeat (split; [assumption|]).
    intros Eg Es Ec. rewrite Eg in *. rewrite Es in *. rewrite Ec in *.
    apply config_eq;
      match goal with
      | Hf : (∅ !! ?k = None -> ?x = ?d) /\ _ |- ?x = ?d =>
          apply (proj1 Hf), lookup_empty
      end.
Qed.

Lemma load_bounds_document :
  load_config (env_with bounds_document) "/etc/fevm-fan-curve.toml"
  = Ok {| fan1_path := fan1_path DEFAULT_CONFIG;
          fan2_path := fan2_path DEFAULT_CONFIG;
          poll_sec := poll_sec DEFAULT_CONFIG;
          min_duty := 30;
          max_duty := 90;
          failsafe_duty := failsafe_duty DEFAULT_CONFIG;
          cpu_sensor_names := cpu_sensor_names DEFAULT_CONFIG;
          mem_sensor_names := mem_sensor_names DEFAULT_CONFIG;
          mem_fallback_to_cpu := mem_fallback_to_cpu DEFAULT_CONFIG;
          cpu_curve := cpu_curve DEFAULT_CONFIG;
          mem_curve := mem_curve DEFAULT_CONFIG |}.
Proof. vm_compute. reflexivity. Qed.

Lemma load_config_follows_keys_witness :
  field_follows (general bounds_document) "min_duty" val_int
    (min_duty DEFAULT_CONFIG) 30 /\
  field_follows (general bounds_document) "failsafe_duty" val_int
    (failsafe_duty DEFAULT_CONFIG) 70.
Proof.
  destruct (load_config_follows_keys (env_with bounds_document)
              "/etc/fevm-fan-curve.toml" _ load_bounds_document) as [_ H].
  destruct (H _ bounds_document eq_refl eq_refl eq_refl)
    as (_ & _ & _ & H4 & _ & H6 & _).
  exact (conj H4 H6).
Defined.







Lemma override_ok {A : Type} (table : gmap string pyval) (key : string)
  (conv : pyval -> res exception A) (default : A) :
  (forall v, table !! key = Some v -> is_ok (conv v) = true) ->
  exists x, override table key conv default = Ok x.
Proof.
  intros H. unfold override. destruct (table !! key) as [v|]; [|eauto].
  specialize (H v eq_refl). destruct (conv v); [eauto|discriminate].
Qed.

(** X17.  When the file exists: without a TOML module [load_config] raises
    [RuntimeError]; with one, a CPU curve that [parse_curve] rejects makes
    [load_config] raise the error of [parse_curve], the earlier
    conversions having returned.  Whatever [load_config] raises, [main]
    ends with it uncaught, exit status 1, before any source is resolved
    and with nothing logged or written. *)
Theorem load_config_errors_fatal (env : ConfigEnv) (path : string) :
  path_exists env path = true ->
  (toml_reader env = None ->
   load_config env path
   = Raise (RuntimeError "No TOML parser: use Python 3.11+ or install tomli")) /\
  (forall load data v raw e,
      toml_reader env = Some load -> load path = Ok data ->
      scalars_convert data ->
      curves data !! "cpu" = Some v -> val_points v = Ok raw ->
      parse_curve raw "curves.cpu" = Raise e ->
      load_config env path = Raise e) /\
  (forall (e : exception) (boot : Sysfs) (moments : list Moment) (s : Store),
      load_config env path = Raise e ->
      run_main env path boot moments s = (Raise (Uncaught e), s) /\
      exit_of (run_main env path boot moments s).1 = Some 1).
Proof.
  intros Hex. split; [|split].
  - intros Hr. unfold load_config. now rewrite Hex, Hr.
  - intros load data v raw e Hr Hl (S1 & S2 & S3 & S4 & S5 & S6) Hc Hp He.
    unfold load_config. rewrite Hex, Hr, Hl. cbn [negb bind].
    destruct (override_ok (general data) "fan1_path"
                (fun v => Ok (val_str v)) (fan1_path DEFAULT_CONFIG))
      as [x1 ->]; [reflexivity|].
    destruct (override_ok (general data) "fan2_path"
                (fun v => Ok (val_str v)) (fan2_path DEFAULT_CONFIG))
      as [x2 ->]; [reflexivity|].
    destruct (override_ok _ "poll_sec" val_float (poll_sec DEFAULT_CONFIG) S1)
      as [x3 ->].
    destruct (override_ok _ "min_duty" val_int (min_duty DEFAULT_CONFIG) S2)
      as [x4 ->].
    destruct (override_ok _ "max_duty" val_int (max_duty DEFAULT_CONFIG) S3)
      as [x5 ->].
    destruct (override_ok _ "failsafe_duty" val_int
                (failsafe_duty DEFAULT_CONFIG) S4) as [x6 ->].
    destruct (override_ok _ "cpu_names" val_strs
                (cpu_sensor_names DEFAULT_CONFIG) S5) as [x7 ->].
    destruct (override_ok _ "mem_names" val_strs
                (mem_sensor_names DEFAULT_CONFIG) S6) as [x8 ->].
    destruct (override_ok (sensors data) "mem_fallback_to_cpu"
                (fun v => Ok (val_bool v)) (mem_fallback_to_cpu DEFAULT_CONFIG))
      as [x9 ->]; [reflexivity|].
    cbn [bind]. unfold override at 1. rewrite Hc, Hp. cbn [bind].
    now rewrite He.
  - intros e boot moments s He. unfold run_main. rewrite He. auto.
Qed.

Lemma bad_curve_document_scalars : scalars_convert bad_curve_document.
Proof.
  repeat split; intros v H; vm_compute in H;
    first [discriminate|injection H as <-; reflexivity].
Qed.

Lemma load_config_errors_fatal_witness :
  load_config (env_with bad_curve_document) "/etc/fevm-fan-curve.toml"
  = Raise (ValueError "curves.cpu[0] must be [temp_c, duty]").
Proof.
  destruct (load_config_errors_fatal (env_with bad_curve_document)
              "/etc/fevm-fan-curve.toml" eq_refl) as (_ & H & _).
  apply (H (fun _ => Ok bad_curve_document) bad_curve_document (numeral 40)
           [ROther; ROther]).
  - reflexivity.
  - reflexivity.
  - exact bad_curve_document_scalars.
  - reflexivity.
  - reflexivity.
  - reflexivity.
Defined.

(** ** Reading a temperature file *)

























(** ** A tick where everything works *)



(** ** Names listed again *)

Lemma filter_none {A : Type} (P : A -> Prop) `{!forall x, Decision (P x)}
  (m : list A) :
  (forall x, x ∈ m -> ~ P x) -> filter P m = [].
Proof.
  induction m as [|a m IH]; intros Hn; [reflexivity|].
  rewrite filter_cons_False by (apply Hn; left).
  apply IH. intros x Hx. apply Hn. now right.
Qed.

Lemma first_occurrences_again (l k : list string) :
  (forall x, x ∈ k -> x ∈ l) ->
  first_occurrences (l ++ k) = first_occurrences l.
Proof.
  intros Hsub. rewrite first_occurrences_app.
  rewrite filter_none; [apply app_nil_r|].
  intros x Hx Hn. apply Hn, Hsub. now apply first_occurrences_elem.
Qed.

Lemma all_matches_app (fs : Sysfs) (names more : list string) :
  all_matches fs (names ++ more) = all_matches fs names ++ all_matches fs more.
Proof.
  induction names as [|n names IH]; [reflexivity|].
  cbn [app all_matches]. now rewrite IH, app_assoc.
Qed.

(** X19.  When every [name] attribute can be read or is missing, names
    that are listed again after a list of names change nothing: resolving
    the longer list returns what resolving the list returns. *)
Theorem resolve_hwmons_names_again (fs : Sysfs) (names again : list string) :
  (forall (p : string) (e : exception),
      p ∈ glob fs "/sys/class/hwmon/hwmon*" ->
      read_file fs (path_join p "name") = Raise e ->
      exists q, e = FileNotFoundError q) ->
  (forall name, name ∈ again -> name ∈ names) ->
  resolve_hwmons fs (names ++ again) = resolve_hwmons fs names.
Proof.
  intros Hread Hsub. unfold resolve_hwmons.
  rewrite !(resolve_loop_spec fs Hread _ [] ∅) by set_solver.
  do 3 f_equal. rewrite all_matches_app. apply first_occurrences_again.
  intros x Hx. apply all_matches_elem in Hx as (n & Hn & Hg & Hm).
  apply all_matches_elem. exists n. auto.
Qed.

Lemma resolve_hwmons_names_again_witness :
  resolve_hwmons example_sysfs (["k10temp"; "spd5118"] ++ ["spd5118"; "k10temp"])
  = resolve_hwmons example_sysfs ["k10temp"; "spd5118"].
Proof.
  apply (resolve_hwmons_names_again example_sysfs).
  - exact example_sysfs_names_readable.
  - intros name Hn. repeat (apply elem_of_cons in Hn as [->|Hn]);
      [right; left|left|inversion Hn].
Defined.
